(** * jsonforms: the styling registry and the base control

    A shallow embedding of [src/core/styling.registry.ts] and
    [src/renderers/controls/base.control.ts].

    JavaScript arrays are objects with identity: the class-name arrays held
    by [Style] records live in an explicit heap and are named by their
    location, so that a reference handed out by the registry and the array
    the registry keeps are visibly the same object.  The registry's own
    array [this.styles] is threaded through the operations as a state. *)

From Stdlib Require Import Ascii.
From stdpp Require Import base option list strings gmap.

(** ** Strings: [String.prototype.split] and [_.join] *)

Module Js.

(** The pieces of [s] between the characters that satisfy [p]; never the
    empty list. *)
Fixpoint split_by (p : ascii → bool) (s : string) : list string :=
  match s with
  | EmptyString => [EmptyString]
  | String c s' =>
      if p c then EmptyString :: split_by p s'
      else match split_by p s' with
           | w :: ws => String c w :: ws
           | [] => [String c EmptyString]
           end
  end.

(** [s.split(sep)] for a one-character separator: the pieces between the
    occurrences of [sep] (["".split(' ')] is [[""]]). *)
Definition split (sep : ascii) (s : string) : list string :=
  split_by (Ascii.eqb sep) s.

(** [_.join(array, sep)] (and [Array.prototype.join]) on an array of strings. *)
Fixpoint join (l : list string) (sep : string) : string :=
  match l with
  | [] => ""
  | [x] => x
  | x :: xs => x +:+ sep +:+ join xs sep
  end.

(** [_.isEmpty] on an array. *)
Definition isEmpty {A} (l : list A) : bool :=
  match l with [] => true | _ => false end.

(** Does the character [c] occur in [s]? *)
Fixpoint contains (c : ascii) (s : string) : bool :=
  match s with
  | EmptyString => false
  | String d s' => Ascii.eqb c d || contains c s'
  end.

End Js.

(** ** The heap of arrays *)

(** A location names an array object; the heap lists the arrays in the order
    of their allocation, so that a new array gets the location [length h]. *)
Abbreviation loc := nat.
Abbreviation Heap := (list (list string)).

(** The elements of the array at [l] (no array: no elements). *)
Definition deref (h : Heap) (l : loc) : list string := default [] (h !! l).

(** The array literal [[]]: a new, empty array. *)
Definition alloc_empty (h : Heap) : loc * Heap := (length h, h ++ [[]]).

(** Any in-place mutation of the array at [l] (push, splice, an index or
    length assignment): its elements afterwards are [v].  Where [l] names
    no array there is nothing to mutate. *)
Definition mutate (l : loc) (v : list string) (h : Heap) : Heap := <[l := v]> h.

(** ** The styling registry *)

Module StylingRegistryImpl.

(** [interface Style { name: string; classNames: string[] }]. *)
Record Style := mkStyle { name : string; classNames : loc }.

(** The field [this.styles]. *)
Abbreviation State := (list Style).

(** [_.remove(this.styles, style => style.name === styleName)]: every
    matching record is taken out, the others keep their order. *)
Definition deregister (styleName : string) (styles : State) : State :=
  filter (fun style => name style ≠ styleName) styles.

(** [register(name, classNames)], the branch [typeof style === 'string']. *)
Definition register (styleName : string) (cls : loc) (styles : State) : State :=
  deregister styleName styles ++ [mkStyle styleName cls].

(** [register(style)], the other branch. *)
Definition register_style (style : Style) (styles : State) : State :=
  deregister (name style) styles ++ [style].

(** [registerMany(styles)] for an array [many] that is another array than
    [this.styles]: [forEach] visits its records in index order, and no
    call of [register] changes it.  The call with the registry's own array
    is [registerMany_own] below. *)
Definition registerMany (many : list Style) (styles : State) : State :=
  foldl (fun st style => register (name style) (classNames style) st) styles many.

(** [_.find(this.styles, style => style.name === styleName)]. *)
Definition find (styleName : string) (styles : State) : option Style :=
  List.find (fun style => bool_decide (name style = styleName)) styles.

(** [get(styleName)].  A found [Style] object has the own keys [name] and
    [classNames], so [_.isEmpty(foundStyle)] is false for it and the stored
    array itself is returned; [_.isEmpty(undefined)] is true and a new empty
    array is returned. *)
Definition get (styleName : string) (styles : State) (h : Heap) : loc * Heap :=
  match find styleName styles with
  | Some foundStyle => (classNames foundStyle, h)
  | None => alloc_empty h
  end.

(** [getAsClassName(styleName)].  The array [get] may have allocated is
    dropped on return, so the heap is only read. *)
Definition getAsClassName (styleName : string) (styles : State) (h : Heap) : string :=
  let '(l, h') := get styleName styles h in
  let found := deref h' l in
  if Js.isEmpty found then "" else Js.join found " ".

(** An HTML element, as far as [applyStyles] uses it. *)
Record HTMLElement := mkElement { className : string; textContent : string }.

(** [applyStyles(styleName, element)]: the element afterwards (what the
    method returns, [''] or nothing, is not used by any caller). *)
Definition applyStyles (styleName : string) (element : HTMLElement)
    (styles : State) (h : Heap) : HTMLElement :=
  let '(l, h') := get styleName styles h in
  let registeredStyles := deref h' l in
  if Js.isEmpty registeredStyles then element
  else
    let assignedStyles := Js.split " "%char (className element) in
    mkElement (Js.join (assignedStyles ++ registeredStyles) " ")
              (textContent element).

(** The registry's invariant: at most one record per name. *)
Definition unique_names (styles : State) : Prop := NoDup (name <$> styles).

(** The elements of the array [get(styleName)] returns. *)
Definition get_classes (styleName : string) (styles : State) (h : Heap) : list string :=
  let '(l, h') := get styleName styles h in deref h' l.

(** What the registry shows for a name: what [get], [getAsClassName] and
    [applyStyles] (on an element [e]) yield. *)
Definition observed (styleName : string) (e : HTMLElement) (styles : State) (h : Heap)
  : list string * string * HTMLElement :=
  (get_classes styleName styles h,
   getAsClassName styleName styles h,
   applyStyles styleName e styles h).

(** The isolation the contract of [get] asks for: whatever the caller does
    to the sequence [get] returned for a registered name, the registry
    shows the same as before. *)
Definition get_result_isolated : Prop :=
  ∀ (styles : State) (h : Heap) (N : string) (s : Style) (v : list string)
    (e : HTMLElement),
    find N styles = Some s → classNames s < length h →
    let '(l, h1) := get N styles h in
    observed N e styles (mutate l v h1) = observed N e styles h1.



(** [new StylingRegistryImpl(styles)]: the array given is the state as it
    is (no record is checked or removed), [[]] when none is given. *)
Definition constructor (styles : option State) : State := default [] styles.

(** How many records carry the name. *)
Definition count_named (styleName : string) (styles : State) : nat :=
  length (filter (fun style => name style = styleName) styles).

(** The last record of an array that carries the name. *)
Definition last_named (styleName : string) (many : list Style) : option Style :=
  last (filter (fun style => name style = styleName) many).

End StylingRegistryImpl.

(** ** The DOM, as far as the control uses it *)

Module Dom.

(** ASCII whitespace: tab, line feed, form feed, carriage return, space. *)
Definition is_ascii_whitespace (c : ascii) : bool :=
  let n := nat_of_ascii c in
  bool_decide (n = 9 ∨ n = 10 ∨ n = 12 ∨ n = 13 ∨ n = 32).

Fixpoint has_whitespace (s : string) : bool :=
  match s with
  | EmptyString => false
  | String c s' => is_ascii_whitespace c || has_whitespace s'
  end.

Inductive DOMException := SyntaxError | InvalidCharacterError.

(** The check [DOMTokenList] makes on a token before [add], [remove] or
    [toggle] touch the token set. *)
Definition validate (token : string) : option DOMException :=
  match token with
  | EmptyString => Some SyntaxError
  | _ => if has_whitespace token then Some InvalidCharacterError else None
  end.

(** The token set of a [classList], in order. *)
Abbreviation TokenSet := (list string).

Definition contains (token : string) (tokens : TokenSet) : bool :=
  bool_decide (token ∈ tokens).

Definition append (token : string) (tokens : TokenSet) : TokenSet :=
  if contains token tokens then tokens else tokens ++ [token].

Definition remove (token : string) (tokens : TokenSet) : TokenSet :=
  filter (fun t => t ≠ token) tokens.

(** [classList.toggle(token, force)] with the second argument given, as
    the DOM standard defines it: the token is checked first; a token that
    is in the set stays when [force] is true and goes otherwise; a token
    that is not in the set is appended when [force] is true. *)
Definition toggle (token : string) (force : bool) (tokens : TokenSet)
  : DOMException + TokenSet :=
  match validate token with
  | Some e => inl e
  | None =>
      if contains token tokens
      then inr (if force then tokens else remove token tokens)
      else inr (if force then tokens ++ [token] else tokens)
  end.

(** [classList.add(token)]. *)
Definition add (token : string) (tokens : TokenSet) : DOMException + TokenSet :=
  match validate token with
  | Some e => inl e
  | None => inr (append token tokens)
  end.

(** The token set a [class] attribute value stands for: its pieces between
    ASCII whitespace, without the empty ones, each kept once. *)
Definition parse_tokens (attr : string) : TokenSet :=
  foldl (fun tokens t => append t tokens) []
        (filter (fun t => t ≠ EmptyString) (Js.split_by is_ascii_whitespace attr)).

End Dom.

(** ** The base control *)

Module BaseControl.

Import StylingRegistryImpl.

(** A value that may be [undefined] or [null]. *)
Inductive Nullable (A : Type) :=
  | undefined
  | null
  | value (a : A).
Arguments undefined {A}.
Arguments null {A}.
Arguments value {A} a.

(** [uischema.runtime]. *)
Record Runtime := mkRuntime {
  visible : bool;
  enabled : bool;
  validationErrors : Nullable (list string)
}.

(** A [ControlElement]: [scope_ref] is [scope.$ref]. *)
Record ControlElement := mkControlElement {
  scope_ref : string;
  runtime : Runtime
}.

(** Modelled from the spec: the enumeration [RUNTIME_TYPE] of
    [core/runtime], which is not among the sources; the spec names the three
    kinds the control reacts to and says that any other kind is ignored. *)
Inductive RUNTIME_TYPE := VALIDATION_ERROR | VISIBLE | ENABLED | OTHER_RUNTIME_TYPE.

(** The values a widget property can hold.  The only function the control
    stores in one is the arrow function of [createInput]; it is kept with
    the variable [controlElement] it closes over. *)
Inductive JsValue :=
  | JsUndefined
  | JsNull
  | JsBool (b : bool)
  | JsNumber (z : Z)
  | JsString (s : string)
  | JsChangeHandler (controlElement : ControlElement).

(** The input widget, as far as the control deals with it: by name, the
    values last assigned to its properties, and its attributes.  What an
    element makes of a value assigned to one of its properties (an
    [<input>] keeps what is assigned to [value] as a string), and how its
    properties follow its attributes (as [disabled] does), is the element's
    own business and is not modelled: the properties proved of the control
    read the change function back from the property it was assigned to, and
    otherwise speak of what the widget holds, not of what was assigned. *)
Record InputElement := mkInput {
  props : gmap string JsValue;
  attrs : gmap string string
}.

(** [input[p]]: a property that was never set reads as [undefined]. *)
Definition prop (input : InputElement) (p : string) : JsValue :=
  default JsUndefined (props input !! p).

(** [input[p] = v]. *)
Definition set_prop (p : string) (v : JsValue) (input : InputElement) : InputElement :=
  mkInput (<[p := v]> (props input)) (attrs input).

Definition setAttribute (a v : string) (input : InputElement) : InputElement :=
  mkInput (props input) (<[a := v]> (attrs input)).

Definition removeAttribute (a : string) (input : InputElement) : InputElement :=
  mkInput (props input) (delete a (attrs input)).

(** The calls the control makes on the data service, which is a
    collaborator outside the sources: they are recorded in order. *)
Inductive DataServiceCall :=
  | GetValue (controlElement : ControlElement)
  | NotifyAboutDataChange (controlElement : ControlElement) (newValue : JsValue).

Abbreviation DataService := (list DataServiceCall).

Definition is_notify (c : DataServiceCall) : bool :=
  match c with NotifyAboutDataChange _ _ => true | GetValue _ => false end.

(** How often [notifyAboutDataChange] was called. *)
Definition notify_count (ds : DataService) : nat :=
  length (List.filter is_notify ds).

(** The members a concrete control class supplies (the abstract ones) or
    may override (the two conversions, which [BaseControl] defines as the
    identity). *)
Class ControlClass := {
  inputChangeProperty : string;
  valueProperty : string;
  createInputElement : InputElement;
  configureInput : InputElement → InputElement;
  convertModelValue : JsValue → JsValue;
  convertInputValue : JsValue → JsValue
}.

(** The control: the element itself ([classList], [hidden], [children])
    and the fields of the class.  The class declares [label], [input] and
    [errorElement] without a value and [render] assigns them; the record is
    the control from then on, the state in which the host delivers events
    and notifications to it. *)
Inductive Child := LabelChild | InputChild | ErrorChild.

Record Control := mkControl {
  uischema : ControlElement;
  label : HTMLElement;
  input : InputElement;
  errorElement : HTMLElement;
  classList : Dom.TokenSet;
  hidden : bool;
  children : list Child
}.

(** [BaseControl.formatErrorMessage]; the separator is a line feed. *)
Definition formatErrorMessage (errors : Nullable (list string)) : string :=
  match errors with
  | undefined | null => ""
  | value errors => Js.join errors (String (ascii_of_nat 10) EmptyString)
  end.

(** [runtime.validationErrors !== undefined]. *)
Definition is_not_undefined {A} (x : Nullable A) : bool :=
  match x with undefined => false | _ => true end.

(** [needsNotificationAbout(controlElement)]. *)
Definition needsNotificationAbout (this : Control)
    (controlElement : Nullable ControlElement) : bool :=
  match controlElement with
  | undefined | null => false
  | value controlElement =>
      bool_decide (scope_ref (uischema this) = scope_ref controlElement)
  end.

Section Methods.

Context `{ControlClass}.

(** The state [JsonForms.stylingRegistry] is in, and the heap. *)
Variable styles : State.
Variable h : Heap.

(** Modelled from the spec: [getElementLabelObject] of [label.util], which
    is not among the sources, is given as the label object (show, text) it
    yields for the control's data schema and a control element. *)
Variable getElementLabelObject : ControlElement → bool * string.

(** Modelled from the spec: [convertToClassName] of the [Renderer] base
    class, which is not among the sources; it turns the bound path into a
    class name. *)
Variable convertToClassName : string → string.

(** Modelled from the spec: [getValue] of the data service, a collaborator
    that is not among the sources, is given as the value it currently
    holds for a control element. *)
Variable currentValue : ControlElement → JsValue.

Definition getStyles (styleName : string) : string :=
  getAsClassName styleName styles h.

Definition applyStyles (styleName : string) (element : HTMLElement) : HTMLElement :=
  StylingRegistryImpl.applyStyles styleName element styles h.

Definition with_label (l : HTMLElement) (this : Control) : Control :=
  mkControl (uischema this) l (input this) (errorElement this)
            (classList this) (hidden this) (children this).

Definition with_input (i : InputElement) (this : Control) : Control :=
  mkControl (uischema this) (label this) i (errorElement this)
            (classList this) (hidden this) (children this).

Definition with_errorElement (e : HTMLElement) (this : Control) : Control :=
  mkControl (uischema this) (label this) (input this) e
            (classList this) (hidden this) (children this).

Definition with_classList (c : Dom.TokenSet) (this : Control) : Control :=
  mkControl (uischema this) (label this) (input this) (errorElement this)
            c (hidden this) (children this).

Definition with_hidden (b : bool) (this : Control) : Control :=
  mkControl (uischema this) (label this) (input this) (errorElement this)
            (classList this) b (children this).

Definition appendChild (c : Child) (this : Control) : Control :=
  mkControl (uischema this) (label this) (input this) (errorElement this)
            (classList this) (hidden this) (children this ++ [c]).

Definition with_textContent (t : string) (e : HTMLElement) : HTMLElement :=
  mkElement (className e) t.

Definition with_className (c : string) (e : HTMLElement) : HTMLElement :=
  mkElement c (textContent e).

(** [document.createElement]. *)
Definition createElement : HTMLElement := mkElement "" "".

(** The error style class: what [getStyles('validation.error')] yields. *)
Definition errorClass : string := getStyles "validation.error".

(** [getValue(input)] and [setValue(input, value)]. *)
Definition getValue (input : InputElement) : JsValue :=
  convertInputValue (prop input valueProperty).

Definition setValue (input : InputElement) (v : JsValue) : InputElement :=
  set_prop valueProperty (convertModelValue v) input.

(** [runtimeUpdated(type)]: the control afterwards, and the exception
    [classList.toggle] raised, if it did.  The error text is written
    before the class is toggled, so it is written in either case. *)
Definition runtimeUpdated (type : RUNTIME_TYPE) (this : Control)
  : Control * option Dom.DOMException :=
  let runtime := runtime (uischema this) in
  match type with
  | VALIDATION_ERROR =>
      let this :=
        with_errorElement
          (with_textContent (formatErrorMessage (validationErrors runtime))
                            (errorElement this)) this in
      match Dom.toggle (getStyles "validation.error")
                       (is_not_undefined (validationErrors runtime))
                       (classList this) with
      | inr tokens => (with_classList tokens this, None)
      | inl e => (this, Some e)
      end
  | VISIBLE => (with_hidden (negb (visible runtime)) this, None)
  | ENABLED =>
      if negb (enabled runtime)
      then (with_input (setAttribute "disabled" "true" (input this)) this, None)
      else (with_input (removeAttribute "disabled" (input this)) this, None)
  | OTHER_RUNTIME_TYPE => (this, None)
  end.

(** [dataChanged(controlElement, newValue, data)]. *)
Definition dataChanged (newValue : JsValue) (this : Control) : Control :=
  with_input (setValue (input this) newValue) this.

(** [createLabel(controlElement)]. *)
Definition createLabel (controlElement : ControlElement) (this : Control) : Control :=
  let label := createElement in
  let '(show, text) := getElementLabelObject controlElement in
  let label := if show then with_textContent text label else label in
  with_label (applyStyles "control.label" label) this.

(** [createInput(controlElement)].  The data service is asked for the
    current value; the styles of ['control.input'] go to the label, as in
    the source. *)
Definition createInput (controlElement : ControlElement) (this : Control)
    (ds : DataService) : Control * DataService :=
  let input := createInputElement in
  let input := configureInput input in
  let input := set_prop inputChangeProperty (JsChangeHandler controlElement) input in
  let ds := ds ++ [GetValue controlElement] in
  let input := setValue input (currentValue controlElement) in
  (with_label (applyStyles "control.input" (label this)) (with_input input this), ds).

(** [render()]: the control afterwards, the data service, and the exception
    [classList.add] raised, if it did.  Assigning [this.className] replaces
    the token set by the one the new attribute value stands for. *)
Definition render (this : Control) (ds : DataService)
  : Control * DataService * option Dom.DOMException :=
  let controlElement := uischema this in
  let this := createLabel controlElement this in
  let '(this, ds) := createInput controlElement this ds in
  let this :=
    with_errorElement
      (with_className (getAsClassName "control.validation" styles h) createElement)
      this in
  let this := appendChild LabelChild this in
  let this := appendChild InputChild this in
  let this := appendChild ErrorChild this in
  let this := with_classList (Dom.parse_tokens (getAsClassName "control" styles h)) this in
  match Dom.add (convertToClassName (scope_ref controlElement)) (classList this) with
  | inr tokens => (with_classList tokens this, ds, None)
  | inl e => (this, ds, Some e)
  end.

(** The arrow function [createInput] installs, called: it closes over
    [controlElement] and reads the widget when it runs. *)
Definition changeHandler (controlElement : ControlElement) (this : Control)
    (ds : DataService) : DataService :=
  ds ++ [NotifyAboutDataChange controlElement (getValue (input this))].

(** The widget signals a change: the function its change property holds is
    called once.  [None] when the property holds no function. *)
Definition fireChange (this : Control) (ds : DataService) : option DataService :=
  match prop (input this) inputChangeProperty with
  | JsChangeHandler controlElement => Some (changeHandler controlElement this ds)
  | _ => None
  end.

(** The user enters [v] in the widget. *)
Definition userInput (v : JsValue) (this : Control) : Control :=
  with_input (set_prop valueProperty v (input this)) this.

End Methods.

(** A concrete class to run the control on: a text field, whose widget
    keeps its text in [value] and its change function in [oninput]. *)
Definition textControl : ControlClass := {|
  inputChangeProperty := "oninput";
  valueProperty := "value";
  createInputElement := mkInput ∅ ∅;
  configureInput := setAttribute "type" "text";
  convertModelValue := fun v => v;
  convertInputValue := fun v => v
|}.

Definition firstName : ControlElement :=
  mkControlElement "/firstName" (mkRuntime true true (value ["required"])).

Definition lastName : ControlElement :=
  mkControlElement "/lastName" (mkRuntime true true undefined).

(** The text field bound to [ce] as [render] leaves it in the registry
    state [styles], [h], the label object being ["First name"], shown, and
    the data service holding ["Ann"].  [render] assigns the label, the
    widget and the error element before it reads them, so that the elements
    the control starts from here play no part in the result. *)
Definition renderedText (styles : State) (h : Heap) (ce : ControlElement) : Control :=
  (@render textControl styles h (fun _ => (true, "First name")) id
           (fun _ => JsString "Ann")
           (mkControl ce createElement (mkInput ∅ ∅) createElement [] false [])
           []).1.1.



(** The runtime layer, which shares the object [uischema] with the
    control, writes [uischema.runtime.validationErrors]. *)
Definition setValidationErrors (errors : Nullable (list string)) (this : Control)
  : Control :=
  let ce := uischema this in
  let rt := runtime ce in
  mkControl (mkControlElement (scope_ref ce)
                              (mkRuntime (visible rt) (enabled rt) errors))
            (label this) (input this) (errorElement this)
            (classList this) (hidden this) (children this).

End BaseControl.

(** * Properties *)

(** ** Splitting and joining *)

Module JsFacts.

Import Js.

Lemma append_nil_l (b : string) : "" +:+ b = b.
Proof. reflexivity. Qed.

Lemma append_cons c (a b : string) : String c a +:+ b = String c (a +:+ b).
Proof. reflexivity. Qed.

Lemma append_assoc (a b c : string) : (a +:+ b) +:+ c = a +:+ b +:+ c.
Proof.
  induction a as [|x a IH]; [done |]. by rewrite !append_cons, IH.
Qed.

Lemma split_by_not_nil p s : split_by p s ≠ [].
Proof.
  destruct s as [|c s]; simpl; [done |].
  destruct (p c); [done |]. by destruct (split_by p s).
Qed.

Lemma split_not_nil sep s : split sep s ≠ [].
Proof. apply split_by_not_nil. Qed.

Lemma join_cons (x : string) (xs : list string) (sep : string) :
  xs ≠ [] → join (x :: xs) sep = x +:+ sep +:+ join xs sep.
Proof. by destruct xs. Qed.

Lemma join_cons_char c w ws sep :
  join (String c w :: ws) sep = String c (join (w :: ws) sep).
Proof. by destruct ws. Qed.

(** Joining what [split] gave restores the string. *)
Lemma join_split sep s : join (split sep s) (String sep "") = s.
Proof.
  unfold split. induction s as [|c s IH]; simpl; [done |].
  destruct (Ascii.eqb_spec sep c) as [<- | Hne].
  - rewrite join_cons by apply split_by_not_nil.
    by rewrite ?append_nil_l, ?append_cons, ?append_nil_l, IH.
  - pose proof (split_by_not_nil (Ascii.eqb sep) s) as Hnil.
    destruct (split_by (Ascii.eqb sep) s) as [|w ws]; [done |].
    by rewrite join_cons_char, IH.
Qed.

Lemma join_app (l1 l2 : list string) sep :
  l1 ≠ [] → l2 ≠ [] →
  join (l1 ++ l2) sep = join l1 sep +:+ sep +:+ join l2 sep.
Proof.
  intros Hl1 Hl2. induction l1 as [|x l1 IH]; [done |].
  destruct l1 as [|y l1].
  - simpl. by destruct l2.
  - change ((x :: y :: l1) ++ l2) with (x :: ((y :: l1) ++ l2)).
    rewrite !join_cons by done. rewrite IH by done.
    by rewrite !append_assoc.
Qed.

(** A piece without the separator, then the separator: [split] cuts there. *)
Lemma split_append_sep sep w rest :
  contains sep w = false →
  split sep (w +:+ String sep rest) = w :: split sep rest.
Proof.
  unfold split. induction w as [|c w IH]; simpl.
  - intros _. rewrite ?append_nil_l. simpl. by rewrite Ascii.eqb_refl.
  - intros [Hc Hw]%orb_false_iff. rewrite ?append_cons. simpl.
    by rewrite Hc, (IH Hw).
Qed.

Lemma split_no_sep sep w : contains sep w = false → split sep w = [w].
Proof.
  unfold split. induction w as [|c w IH]; simpl; [done |].
  intros [Hc Hw]%orb_false_iff. by rewrite Hc, (IH Hw).
Qed.

(** Splitting what [join] made of pieces without the separator restores
    the pieces. *)
Lemma split_join sep (l : list string) :
  Forall (fun w => contains sep w = false) l → l ≠ [] →
  split sep (join l (String sep "")) = l.
Proof.
  induction 1 as [|w l Hw Hall IH]; [done |]. intros _.
  destruct l as [|y l].
  - simpl. by apply split_no_sep.
  - rewrite join_cons by done.
    rewrite ?append_cons, ?append_nil_l.
    rewrite split_append_sep by done. by rewrite IH.
Qed.

(** The pieces [split] gives are free of the separator. *)
Lemma split_pieces sep s : Forall (fun w => contains sep w = false) (split sep s).
Proof.
  unfold split. induction s as [|c s IH]; simpl.
  - by constructor.
  - destruct (Ascii.eqb sep c) eqn:Hc.
    + by constructor.
    + inversion IH as [|w ws Hw Hws Heq]; constructor; simpl; try done.
      * by rewrite Hc.
      * by rewrite Hc, Hw.
Qed.

End JsFacts.

(** ** The styling registry *)

Module StylingRegistryFacts.

Import Js StylingRegistryImpl.

Lemma find_app N (l1 l2 : State) :
  find N (l1 ++ l2) = match find N l1 with Some s => Some s | None => find N l2 end.
Proof.
  unfold find. induction l1 as [|s l1 IH]; simpl; [done |].
  by destruct (bool_decide (name s = N)).
Qed.

Lemma find_None N (styles : State) : find N styles = None ↔ N ∉ name <$> styles.
Proof.
  unfold find. induction styles as [|s styles IH]; simpl.
  - split; [intros _; apply not_elem_of_nil | done].
  - rewrite not_elem_of_cons. case_bool_decide as Hs.
    + split; [done | intros [Hne _]; by subst].
    + rewrite IH. split; [intros ?; split; [by intros -> | done] | by intros [_ ?]].
Qed.

Lemma find_Some N (styles : State) s :
  find N styles = Some s → name s = N ∧ s ∈ styles.
Proof.
  unfold find. induction styles as [|s' styles IH]; simpl; [done |].
  case_bool_decide as Hs.
  - intros [= ->]. split; [done | apply list_elem_of_here].
  - intros Hf. destruct (IH Hf) as [? ?].
    split; [done | by apply list_elem_of_further].
Qed.

Lemma deregister_names N (styles : State) : N ∉ name <$> deregister N styles.
Proof.
  unfold deregister. intros (s & Hs & Hin)%list_elem_of_fmap.
  apply list_elem_of_filter in Hin as [Hne _]. by apply Hne.
Qed.

Lemma find_deregister N (styles : State) : find N (deregister N styles) = None.
Proof. apply find_None, deregister_names. Qed.

Lemma find_deregister_ne N M (styles : State) :
  N ≠ M → find N (deregister M styles) = find N styles.
Proof.
  intros Hne. unfold find, deregister.
  induction styles as [|s styles IH]; [done |].
  rewrite filter_cons. simpl. case_bool_decide as Hs.
  - subst N. rewrite decide_True by done. simpl.
    by rewrite bool_decide_eq_true_2.
  - destruct (decide (name s ≠ M)); [|done]. simpl.
    by rewrite bool_decide_eq_false_2.
Qed.

Lemma find_register N cls (styles : State) :
  find N (register N cls styles) = Some (mkStyle N cls).
Proof.
  unfold register. rewrite find_app, find_deregister.
  unfold find. simpl. by rewrite bool_decide_eq_true_2.
Qed.

Lemma deregister_absent N (styles : State) :
  N ∉ name <$> styles → deregister N styles = styles.
Proof.
  unfold deregister. induction styles as [|s styles IH]; [done |].
  rewrite fmap_cons, not_elem_of_cons. intros [Hne Hnin].
  rewrite filter_cons_True by done. by rewrite IH.
Qed.

Lemma deregister_app N (l1 l2 : State) :
  deregister N (l1 ++ l2) = deregister N l1 ++ deregister N l2.
Proof. apply filter_app. Qed.

Lemma deregister_idemp N (styles : State) :
  deregister N (deregister N styles) = deregister N styles.
Proof. apply deregister_absent, deregister_names. Qed.

Lemma unique_names_deregister N (styles : State) :
  unique_names styles → unique_names (deregister N styles).
Proof.
  unfold unique_names, deregister. intros Hnd.
  eapply sublist_NoDup; [exact Hnd |].
  apply fmap_sublist, sublist_filter.
Qed.

Lemma unique_names_push s (styles : State) :
  unique_names styles → name s ∉ name <$> styles → unique_names (styles ++ [s]).
Proof.
  unfold unique_names. intros Hnd Hnin. rewrite fmap_app. apply NoDup_app.
  split_and!; [done | | apply NoDup_singleton].
  intros x Hx. simpl. rewrite list_elem_of_singleton. by intros ->.
Qed.

Create HintDb registry.
#[local] Hint Resolve unique_names_deregister deregister_names unique_names_push
  : registry.

Lemma unique_names_register N cls (styles : State) :
  unique_names styles → unique_names (register N cls styles).
Proof. unfold register. auto with registry. Qed.

Lemma unique_names_register_style s (styles : State) :
  unique_names styles → unique_names (register_style s styles).
Proof. unfold register_style. auto with registry. Qed.

Lemma unique_names_registerMany many (styles : State) :
  unique_names styles → unique_names (registerMany many styles).
Proof.
  unfold registerMany. revert styles.
  induction many as [|s many IH]; intros styles Hnd; [done |].
  simpl. by apply IH, unique_names_register.
Qed.

Lemma get_registered N (styles : State) h s :
  find N styles = Some s → get N styles h = (classNames s, h).
Proof. unfold get. by intros ->. Qed.

Lemma get_unregistered N (styles : State) h :
  find N styles = None → get N styles h = (length h, h ++ [[]]).
Proof. unfold get. by intros ->. Qed.

Lemma deref_alloc_empty (h : Heap) : deref (h ++ [[]]) (length h) = [].
Proof.
  unfold deref. rewrite lookup_app_r by lia. by rewrite Nat.sub_diag.
Qed.

Lemma get_classes_registered N (styles : State) h s :
  find N styles = Some s → get_classes N styles h = deref h (classNames s).
Proof. intros Hs. unfold get_classes. by rewrite (get_registered _ _ _ _ Hs). Qed.

Lemma get_classes_unregistered N (styles : State) h :
  find N styles = None → get_classes N styles h = [].
Proof.
  intros Hs. unfold get_classes. rewrite (get_unregistered _ _ _ Hs).
  apply deref_alloc_empty.
Qed.

Lemma getAsClassName_classes N (styles : State) h :
  getAsClassName N styles h =
  if isEmpty (get_classes N styles h) then "" else join (get_classes N styles h) " ".
Proof. unfold getAsClassName, get_classes. by destruct (get N styles h). Qed.

Lemma applyStyles_classes N e (styles : State) h :
  applyStyles N e styles h =
  if isEmpty (get_classes N styles h) then e
  else mkElement (join (split " " (className e) ++ get_classes N styles h) " ")
                 (textContent e).
Proof. unfold applyStyles, get_classes. by destruct (get N styles h). Qed.

Lemma deref_mutate (h : Heap) l v : l < length h → deref (mutate l v h) l = v.
Proof.
  intros Hl. unfold deref, mutate. by rewrite list_lookup_insert_eq.
Qed.

(** *** Registering twice under one name *)

(** C1.  Registering under a name that is registered replaces the entry:
    in every registry state, after [register(N, A)] and then
    [register(N, B)] the call [get(N)] returns the array [B] itself (and
    allocates nothing), and the state is the one [register(N, B)] alone
    would have given, so nothing of the entry for [A] is left. *)
Theorem register_twice_get (styles : State) (h : Heap) (N : string) (A B : loc) :
  get N (register N B (register N A styles)) h = (B, h)
  ∧ get_classes N (register N B (register N A styles)) h = deref h B
  ∧ register N B (register N A styles) = register N B styles.
Proof.
  split_and!.
  - by rewrite (get_registered _ _ _ _ (find_register N B _)).
  - by rewrite (get_classes_registered _ _ _ _ (find_register N B _)).
  - unfold register. rewrite deregister_app, deregister_idemp.
    simpl. unfold deregister at 2. rewrite filter_cons_False by (simpl; tauto).
    by rewrite filter_nil, app_nil_r.
Qed.

(** *** The invariant *)

(** C2.  A state with at most one record per name still has at most one
    record per name after [register] (with a name and class names, or with
    a style), after [registerMany] and after [deregister]. *)
Theorem unique_names_preserved (styles : State) :
  unique_names styles →
  (∀ N cls, unique_names (register N cls styles))
  ∧ (∀ style, unique_names (register_style style styles))
  ∧ (∀ many, unique_names (registerMany many styles))
  ∧ (∀ N, unique_names (deregister N styles)).
Proof.
  intros Hnd. split_and!; intros.
  - by apply unique_names_register.
  - by apply unique_names_register_style.
  - by apply unique_names_registerMany.
  - by apply unique_names_deregister.
Qed.

Lemma unique_names_preserved_witness :
  let styles := [mkStyle "control" 0; mkStyle "control.label" 1] in
  unique_names styles
  ∧ unique_names (register "control" 2 styles)
  ∧ unique_names (registerMany [mkStyle "a" 3; mkStyle "a" 4] styles)
  ∧ unique_names (deregister "control" styles).
Proof.
  intros styles.
  assert (Hnd : unique_names styles).
  { unfold unique_names, styles. simpl. apply (bool_decide_unpack _). vm_compute. exact I. }
  destruct (unique_names_preserved styles Hnd) as (H1 & _ & H3 & H4).
  split_and!; [exact Hnd | apply H1 | apply H3 | apply H4].
Defined.

(** *** Deregistering an unknown name *)

(** C8.  [deregister(N)] for a name that no record of the state carries
    returns (the operation has no failing path) and leaves the state as it
    was. *)
Theorem deregister_unknown (styles : State) (N : string) :
  N ∉ name <$> styles → deregister N styles = styles.
Proof. apply deregister_absent. Qed.

Lemma deregister_unknown_witness :
  let styles := [mkStyle "control" 0; mkStyle "control.label" 1] in
  ("button" ∉ name <$> styles) ∧ deregister "button" styles = styles.
Proof.
  intros styles.
  assert (Hnin : "button" ∉ name <$> styles).
  { unfold styles. simpl. apply (bool_decide_unpack _). vm_compute. exact I. }
  split; [exact Hnin | exact (deregister_unknown styles "button" Hnin)].
Defined.

(** *** Applying styles *)

Lemma isEmpty_false {A} (l : list A) : l ≠ [] → isEmpty l = false.
Proof. by destruct l. Qed.

(** The class attribute after [applyStyles], by the classes registered. *)
Lemma applyStyles_className N e (styles : State) h :
  className (applyStyles N e styles h) =
  match get_classes N styles h with
  | [] => className e
  | reg => className e +:+ " " +:+ join reg " "
  end.
Proof.
  rewrite applyStyles_classes.
  destruct (get_classes N styles h) as [|c reg] eqn:Hreg; [done |].
  simpl isEmpty. cbv iota. unfold className at 1.
  rewrite JsFacts.join_app by (done || apply JsFacts.split_not_nil).
  by rewrite (JsFacts.join_split " ").
Qed.

(** C5.  [applyStyles(N, E)] in every registry state and for every
    element: the class attribute becomes the old one, a space, and the
    class names registered under [N] joined by spaces; read as a class
    list (split at the spaces), it is the old list followed by the
    registered names in their order, whenever these are free of spaces;
    the text of the element is kept; the element is unchanged when nothing
    is registered under [N]; and ["foo"] with [["bar"; "baz"]] gives
    ["foo bar baz"]. *)
Theorem applyStyles_appends (styles : State) (h : Heap) (N : string) (E : HTMLElement) :
  let reg := get_classes N styles h in
  let E' := applyStyles N E styles h in
  (reg ≠ [] → className E' = className E +:+ " " +:+ join reg " ")
  ∧ (Forall (fun c => contains " " c = false) reg →
     split " " (className E') = split " " (className E) ++ reg)
  ∧ textContent E' = textContent E
  ∧ (find N styles = None → E' = E)
  ∧ (className E = "foo" → reg = ["bar"; "baz"] → className E' = "foo bar baz").
Proof.
  intros reg E'. subst E'.
  pose proof (applyStyles_className N E styles h) as Hcls. fold reg in Hcls.
  split_and!.
  - intros Hreg. rewrite Hcls. by destruct reg.
  - intros Hfree. rewrite applyStyles_classes. fold reg.
    destruct reg as [|c reg'] eqn:Hreg; [by rewrite app_nil_r |].
    simpl isEmpty. cbv iota. unfold className at 1.
    apply JsFacts.split_join.
    + apply Forall_app. split; [apply JsFacts.split_pieces | done].
    + intros [Hnil _]%app_eq_nil. by apply JsFacts.split_not_nil in Hnil.
  - rewrite applyStyles_classes. by destruct (isEmpty _).
  - intros Hfind. rewrite applyStyles_classes.
    by rewrite (get_classes_unregistered _ _ _ Hfind).
  - intros Hfoo Hreg. rewrite Hcls, Hreg, Hfoo. reflexivity.
Qed.

Lemma applyStyles_appends_witness :
  let styles := [mkStyle "control.label" 0] in
  let h : Heap := [["bar"; "baz"]] in
  className (applyStyles "control.label" (mkElement "foo" "First name") styles h)
  = "foo bar baz"
  ∧ split " " (className (applyStyles "control.label" (mkElement "foo" "First name") styles h))
    = ["foo"; "bar"; "baz"]
  ∧ applyStyles "control.input" (mkElement "foo" "First name") styles h
    = mkElement "foo" "First name".
Proof.
  intros styles h.
  destruct (applyStyles_appends styles h "control.label" (mkElement "foo" "First name"))
    as (_ & H2 & _ & _ & H5).
  destruct (applyStyles_appends styles h "control.input" (mkElement "foo" "First name"))
    as (_ & _ & _ & H4 & _).
  split_and!.
  - apply H5; reflexivity.
  - apply H2. vm_compute. repeat constructor.
  - apply H4. reflexivity.
Defined.

(** C10.  An element whose class attribute is the empty string, a name
    registered with a class list that is not empty: after [applyStyles]
    the class attribute is a space followed by the joined class names, so
    it begins with a space and its first piece is the empty one; with
    [["bar"; "baz"]] it is [" bar baz"]. *)
Theorem applyStyles_empty_className (styles : State) (h : Heap) (N : string)
    (E : HTMLElement) :
  className E = "" → get_classes N styles h ≠ [] →
  let E' := applyStyles N E styles h in
  className E' = String " " (join (get_classes N styles h) " ")
  ∧ head (split " " (className E')) = Some ""
  ∧ (get_classes N styles h = ["bar"; "baz"] → className E' = " bar baz").
Proof.
  intros Hempty Hreg E'.
  assert (Hcls : className E' = String " " (join (get_classes N styles h) " ")).
  { unfold E'. rewrite applyStyles_className, Hempty.
    by destruct (get_classes N styles h). }
  split_and!.
  - exact Hcls.
  - rewrite Hcls. reflexivity.
  - intros Hbar. rewrite Hcls, Hbar. reflexivity.
Qed.

Lemma applyStyles_empty_className_witness :
  let styles := [mkStyle "control" 0] in
  let h : Heap := [["bar"; "baz"]] in
  className (applyStyles "control" (mkElement "" "") styles h) = " bar baz".
Proof.
  intros styles h.
  assert (Hreg : get_classes "control" styles h ≠ []) by (vm_compute; discriminate).
  destruct (applyStyles_empty_className styles h "control" (mkElement "" "")
              eq_refl Hreg) as (_ & _ & H3).
  apply H3. reflexivity.
Defined.

(** *** The reference [get] returns *)

(** C7, as the contract words it, fails: [get] hands out the stored array.
    One style ["control"] with the class ["c"]; the caller pushes ["x"] on
    the array [get("control")] returned; [get("control")] then shows
    [["c"; "x"]]. *)
Lemma get_result_shared : ¬ get_result_isolated.
Proof.
  intros Hiso.
  specialize (Hiso [mkStyle "control" 0] [["c"]] "control" (mkStyle "control" 0)
                   ["c"; "x"] (mkElement "" "") eq_refl).
  simpl in Hiso. specialize (Hiso ltac:(lia)).
  vm_compute in Hiso. discriminate Hiso.
Qed.

(** C7, amended.  For a registered name [get] returns the array the
    registry holds, and allocates nothing: once the caller has changed its
    elements to [v], the operations [get], [getAsClassName] and
    [applyStyles] show [v] for that name.  For a name that is not
    registered [get] returns a new empty array, and [get] shows the empty
    sequence again whatever the caller does to that array. *)
Theorem get_returns_stored_array (styles : State) (h : Heap) (N : string)
    (v : list string) (e : HTMLElement) :
  (∀ s, find N styles = Some s → classNames s < length h →
     get N styles h = (classNames s, h)
     ∧ let h' := mutate (classNames s) v h in
       get N styles h' = (classNames s, h')
       ∧ get_classes N styles h' = v
       ∧ getAsClassName N styles h' = (if isEmpty v then "" else join v " ")
       ∧ className (applyStyles N e styles h') =
         match v with
         | [] => className e
         | _ => className e +:+ " " +:+ join v " "
         end)
  ∧ (find N styles = None →
     get N styles h = (length h, h ++ [[]])
     ∧ get_classes N styles (mutate (length h) v (h ++ [[]])) = []).
Proof.
  split.
  - intros s Hfind Hlt. split; [by apply get_registered |].
    intros h'.
    assert (Hv : get_classes N styles h' = v).
    { rewrite (get_classes_registered _ _ _ _ Hfind). by apply deref_mutate. }
    split_and!.
    + by apply get_registered.
    + exact Hv.
    + by rewrite getAsClassName_classes, Hv.
    + rewrite applyStyles_className, Hv. by destruct v.
  - intros Hfind. split; [by apply get_unregistered |].
    by apply get_classes_unregistered.
Qed.

Lemma get_returns_stored_array_witness :
  let styles := [mkStyle "control" 0] in
  let h : Heap := [["c"]] in
  get "control" styles h = (0, h)
  ∧ get_classes "control" styles (mutate 0 ["c"; "x"] h) = ["c"; "x"]
  ∧ get_classes "button" styles (mutate 1 ["x"] (h ++ [[]])) = [].
Proof.
  intros styles h.
  destruct (get_returns_stored_array styles h "control" ["c"; "x"] (mkElement "" ""))
    as [Hreg _].
  destruct (Hreg (mkStyle "control" 0) eq_refl ltac:(simpl; lia))
    as (H1 & _ & H2 & _).
  destruct (get_returns_stored_array styles h "button" ["x"] (mkElement "" ""))
    as [_ Hunreg].
  destruct (Hunreg eq_refl) as [_ H3].
  split_and!; [exact H1 | exact H2 | exact H3].
Defined.

End StylingRegistryFacts.

(** ** The base control *)

Module BaseControlFacts.

Import StylingRegistryImpl BaseControl.

(** *** Interest in data changes *)

(** C4.  [needsNotificationAbout(E)] is true exactly when [E] is an element
    (neither [null] nor [undefined]) whose [scope.$ref] equals the one of
    the control's own element; it is false for [null] and for [undefined]. *)
Theorem needsNotificationAbout_iff (this : Control) (E : Nullable ControlElement) :
  (needsNotificationAbout this E = true ↔
     ∃ ce, E = value ce ∧ scope_ref ce = scope_ref (uischema this))
  ∧ needsNotificationAbout this null = false
  ∧ needsNotificationAbout this undefined = false.
Proof.
  split_and!; [| done | done].
  destruct E as [| |ce]; simpl.
  - split; [done | by intros (ce & ? & _)].
  - split; [done | by intros (ce & ? & _)].
  - rewrite bool_decide_eq_true. split.
    + intros Href. by exists ce.
    + by intros (ce' & [= <-] & ->).
Qed.

(** *** Toggling a class *)

Lemma toggle_on token (tokens : Dom.TokenSet) :
  Dom.validate token = None →
  ∃ tokens', Dom.toggle token true tokens = inr tokens' ∧ token ∈ tokens'.
Proof.
  intros Hvalid. unfold Dom.toggle, Dom.contains. rewrite Hvalid.
  case_bool_decide as Hin.
  - by exists tokens.
  - exists (tokens ++ [token]). split; [done |].
    apply elem_of_app. right. apply list_elem_of_here.
Qed.

Lemma toggle_off token (tokens : Dom.TokenSet) :
  Dom.validate token = None →
  ∃ tokens', Dom.toggle token false tokens = inr tokens' ∧ token ∉ tokens'.
Proof.
  intros Hvalid. unfold Dom.toggle, Dom.contains. rewrite Hvalid.
  case_bool_decide as Hin.
  - exists (Dom.remove token tokens). split; [done |].
    unfold Dom.remove. rewrite list_elem_of_filter. by intros [Hne _].
  - by exists tokens.
Qed.

Section RuntimeUpdated.

Variable styles : State.
Variable h : Heap.



(** When the error style is no class (nothing registered, or several
    class names joined by spaces), [classList.toggle] raises, and the
    classes are as they were. *)
Lemma runtimeUpdated_error_class_raises (this : Control) e :
  Dom.validate (errorClass styles h) = Some e →
  (runtimeUpdated styles h VALIDATION_ERROR this).2 = Some e
  ∧ classList (runtimeUpdated styles h VALIDATION_ERROR this).1 = classList this.
Proof.
  intros Hinvalid. unfold runtimeUpdated, Dom.toggle. fold (errorClass styles h).
  by rewrite Hinvalid.
Qed.



End RuntimeUpdated.





(** *** Forwarding an edit *)

Section ChangeHandler.

Context `{ControlClass}.
Variable styles : State.
Variable h : Heap.
Variable getElementLabelObject : ControlElement → bool * string.
Variable convertToClassName : string → string.
Variable currentValue : ControlElement → JsValue.

(** The widget [createInput] leaves in the control. *)
Lemma createInput_input ce (this : Control) (ds : DataService) :
  input (createInput styles h currentValue ce this ds).1 =
  setValue (set_prop inputChangeProperty (JsChangeHandler ce)
              (configureInput createInputElement))
           (currentValue ce).
Proof. reflexivity. Qed.

Lemma createInput_uischema ce (this : Control) (ds : DataService) :
  uischema (createInput styles h currentValue ce this ds).1 = uischema this.
Proof. reflexivity. Qed.

(** [render] leaves the widget of [createInput], bound to [this.uischema]. *)
Lemma render_input (this this' : Control) (ds ds' : DataService) exn :
  render styles h getElementLabelObject convertToClassName currentValue this ds
    = (this', ds', exn) →
  uischema this' = uischema this
  ∧ input this' =
    setValue (set_prop inputChangeProperty (JsChangeHandler (uischema this))
                (configureInput createInputElement))
             (currentValue (uischema this)).
Proof.
  unfold render.
  destruct (createInput _ _ _ _ _ _) as [this1 ds1] eqn:Hcreate.
  assert (Hin : input this1 = input (createInput styles h currentValue
             (uischema this)
             (createLabel styles h getElementLabelObject (uischema this) this) ds).1)
    by (by rewrite Hcreate).
  assert (Hui : uischema this1 = uischema this).
  { replace this1 with (createInput styles h currentValue (uischema this)
             (createLabel styles h getElementLabelObject (uischema this) this) ds).1
      by (by rewrite Hcreate).
    rewrite createInput_uischema. unfold createLabel.
    by destruct (getElementLabelObject (uischema this)). }
  rewrite createInput_input in Hin.
  destruct (Dom.add _ _); intros [= <- _ _]; simpl; by rewrite Hui, Hin.
Qed.

(** The change function survives [setValue] when the two properties
    differ. *)
Lemma handler_installed ce (i : InputElement) v :
  inputChangeProperty ≠ valueProperty →
  prop (setValue (set_prop inputChangeProperty (JsChangeHandler ce) i) v)
       inputChangeProperty = JsChangeHandler ce.
Proof.
  intros Hne. unfold prop, setValue, set_prop. simpl.
  rewrite lookup_insert_ne by done. by rewrite lookup_insert_eq.
Qed.

Lemma notify_count_snoc (ds : DataService) ce v :
  notify_count (ds ++ [NotifyAboutDataChange ce v]) = S (notify_count ds).
Proof.
  unfold notify_count. rewrite List.filter_app, length_app. simpl. lia.
Qed.

(** C6.  On a rendered control of a class whose change property and value
    property are two properties: the widget signalling a change once makes
    the data service receive one more call, a [notifyAboutDataChange] with
    the control's own element and the converted widget value, be it the
    value [render] wrote or a value [v] the user entered since. *)
Theorem change_notifies_once (this this' : Control) (ds ds' : DataService) exn :
  inputChangeProperty ≠ valueProperty →
  render styles h getElementLabelObject convertToClassName currentValue this ds
    = (this', ds', exn) →
  ∀ ds0 : DataService,
    fireChange this' ds0 =
      Some (ds0 ++ [NotifyAboutDataChange (uischema this')
                      (convertInputValue (prop (input this') valueProperty))])
    ∧ (∀ v, fireChange (userInput v this') ds0 =
         Some (ds0 ++ [NotifyAboutDataChange (uischema this') (convertInputValue v)]))
    ∧ (∀ v ds1, fireChange (userInput v this') ds0 = Some ds1 →
         notify_count ds1 = S (notify_count ds0)).
Proof.
  intros Hne Hrender ds0.
  destruct (render_input _ _ _ _ _ Hrender) as [Hui Hin].
  assert (Hhandler : prop (input this') inputChangeProperty
                     = JsChangeHandler (uischema this')).
  { rewrite Hin, Hui. by apply handler_installed. }
  assert (Huser : ∀ v, fireChange (userInput v this') ds0 =
            Some (ds0 ++ [NotifyAboutDataChange (uischema this') (convertInputValue v)])).
  { intros v. unfold fireChange, userInput. simpl.
    replace (prop (set_prop valueProperty v (input this')) inputChangeProperty)
      with (JsChangeHandler (uischema this')).
    - unfold changeHandler, getValue, prop, set_prop. simpl.
      by rewrite lookup_insert_eq.
    - rewrite <- Hhandler. unfold prop, set_prop. simpl.
      by rewrite lookup_insert_ne. }
  split_and!.
  - unfold fireChange. by rewrite Hhandler.
  - exact Huser.
  - intros v ds1. rewrite Huser. intros [= <-]. apply notify_count_snoc.
Qed.

(** Without that condition [setValue] overwrites the change function. *)
Lemma handler_overwritten ce (i : InputElement) v :
  inputChangeProperty = valueProperty →
  prop (setValue (set_prop inputChangeProperty (JsChangeHandler ce) i) v)
       inputChangeProperty = convertModelValue v.
Proof.
  intros ->. unfold prop, setValue, set_prop. simpl. by rewrite lookup_insert_eq.
Qed.

End ChangeHandler.

Lemma change_notifies_once_witness :
  let label := fun _ : ControlElement => (true, "First name") in
  let current := fun _ : ControlElement => JsString "Ann" in
  let this := mkControl firstName createElement (mkInput ∅ ∅) createElement
                        [] false [] in
  let r := @render textControl [] [] label id current this [] in
  @fireChange textControl (@userInput textControl (JsString "Bob") r.1.1) r.1.2
  = Some [GetValue firstName; NotifyAboutDataChange firstName (JsString "Bob")].
Proof.
  intros label current this r.
  assert (Hne : @inputChangeProperty textControl ≠ @valueProperty textControl)
    by (vm_compute; discriminate).
  destruct (@change_notifies_once textControl [] [] label id current
              this r.1.1 [] r.1.2 r.2 Hne eq_refl r.1.2)
    as (_ & Huser & _).
  exact (Huser (JsString "Bob")).
Defined.

End BaseControlFacts.

(** * Further properties *)

(** ** The styling registry *)

Module StylingRegistryLaws.

Import Js StylingRegistryImpl StylingRegistryFacts.

Lemma find_register_ne N M cls (styles : State) :
  M ≠ N → find M (register N cls styles) = find M styles.
Proof.
  intros Hne. unfold register. rewrite find_app, find_deregister_ne by done.
  destruct (find M styles); [done |].
  unfold find. simpl. rewrite bool_decide_eq_false_2; [done | by intros <-].
Qed.

Lemma style_eta (s : Style) : mkStyle (name s) (classNames s) = s.
Proof. by destruct s. Qed.

Lemma register_style_eq (s : Style) (styles : State) :
  register_style s styles = register (name s) (classNames s) styles.
Proof. unfold register_style, register. by rewrite style_eta. Qed.

Lemma get_find_eq N M (st1 st2 : State) h :
  find N st1 = find M st2 → get N st1 h = get M st2 h.
Proof. unfold get. by intros ->. Qed.

Lemma names_deregister N M (styles : State) :
  M ∈ name <$> deregister N styles ↔ M ≠ N ∧ M ∈ name <$> styles.
Proof.
  unfold deregister. rewrite !list_elem_of_fmap. split.
  - intros (s & -> & [Hne Hin]%list_elem_of_filter). split; [done | by exists s].
  - intros (Hne & s & -> & Hin). exists s. split; [done |].
    by apply list_elem_of_filter.
Qed.

Lemma names_register N M cls (styles : State) :
  M ∈ name <$> register N cls styles ↔ M = N ∨ M ∈ name <$> styles.
Proof.
  unfold register. rewrite fmap_app, elem_of_app, names_deregister. simpl.
  rewrite list_elem_of_singleton.
  destruct (decide (M = N)); [by split; auto | by split; intros [[]|]; auto].
Qed.

Lemma registerMany_snoc many s (styles : State) :
  registerMany (many ++ [s]) styles =
  register (name s) (classNames s) (registerMany many styles).
Proof. unfold registerMany. by rewrite foldl_snoc. Qed.

(** X1.  What was registered is what [get] returns: after
    [register(N, cls)], and after [register(style)], the call [get] for
    that name returns the registered array itself and allocates nothing. *)
Theorem get_after_register (styles : State) (h : Heap) (N : string) (cls : loc)
    (style : Style) :
  get N (register N cls styles) h = (cls, h)
  ∧ get (name style) (register_style style styles) h = (classNames style, h).
Proof.
  split.
  - by rewrite (get_registered _ _ _ _ (find_register N cls styles)).
  - rewrite register_style_eq.
    by rewrite (get_registered _ _ _ _ (find_register _ _ styles)).
Qed.

(** X2.  Registering or deregistering a name leaves what [get],
    [getAsClassName] and [applyStyles] show for every other name. *)
Theorem other_names_untouched (styles : State) (h : Heap) (N M : string)
    (cls : loc) (e : HTMLElement) :
  M ≠ N →
  observed M e (register N cls styles) h = observed M e styles h
  ∧ get M (register N cls styles) h = get M styles h
  ∧ observed M e (deregister N styles) h = observed M e styles h
  ∧ get M (deregister N styles) h = get M styles h.
Proof.
  intros Hne.
  assert (Hreg : get M (register N cls styles) h = get M styles h)
    by (apply get_find_eq; by apply find_register_ne).
  assert (Hdereg : get M (deregister N styles) h = get M styles h)
    by (apply get_find_eq; by apply find_deregister_ne).
  unfold observed, get_classes, getAsClassName, applyStyles.
  rewrite Hreg, Hdereg. done.
Qed.

Lemma other_names_untouched_witness :
  let styles := [mkStyle "control" 0; mkStyle "control.label" 1] in
  let h : Heap := [["c"]; ["l"]] in
  get "control.label" (register "control" 2 styles) h = (1, h)
  ∧ get "control.label" (deregister "control" styles) h = (1, h).
Proof.
  intros styles h.
  assert (Hne : "control.label" ≠ "control") by discriminate.
  destruct (other_names_untouched styles h "control" "control.label" 2
              (mkElement "" "") Hne) as (_ & H2 & _ & H4).
  split; [exact H2 | exact H4].
Defined.

(** X3.  After [deregister(N)] the name is unknown in every state:
    [get] returns a new empty array, [getAsClassName] the empty string,
    and [applyStyles] leaves the element as it is. *)
Theorem deregistered_name_unknown (styles : State) (h : Heap) (N : string)
    (e : HTMLElement) :
  get N (deregister N styles) h = (length h, h ++ [[]])
  ∧ get_classes N (deregister N styles) h = []
  ∧ getAsClassName N (deregister N styles) h = ""
  ∧ applyStyles N e (deregister N styles) h = e.
Proof.
  pose proof (find_deregister N styles) as Hfind.
  pose proof (get_classes_unregistered _ _ h Hfind) as Hcls.
  split_and!.
  - by apply get_unregistered.
  - exact Hcls.
  - by rewrite getAsClassName_classes, Hcls.
  - by rewrite applyStyles_classes, Hcls.
Qed.

Lemma count_named_app N (l1 l2 : State) :
  count_named N (l1 ++ l2) = count_named N l1 + count_named N l2.
Proof. unfold count_named. by rewrite filter_app, length_app. Qed.

Lemma count_named_deregister N (styles : State) :
  count_named N (deregister N styles) = 0.
Proof.
  unfold count_named, deregister. induction styles as [|s styles IH]; [done |].
  rewrite (filter_cons (λ style, name style ≠ N)).
  destruct (decide (name s ≠ N)) as [Hne | Heq]; [| done].
  by rewrite filter_cons_False.
Qed.

Lemma count_named_deregister_ne N M (styles : State) :
  M ≠ N → count_named M (deregister N styles) = count_named M styles.
Proof.
  intros Hne. unfold count_named, deregister.
  induction styles as [|s styles IH]; [done |].
  rewrite (filter_cons (λ style, name style ≠ N)).
  destruct (decide (name s ≠ N)) as [Hs | Hs].
  - rewrite !(filter_cons (λ style, name style = M)).
    destruct (decide (name s = M)); simpl; by rewrite IH.
  - rewrite (filter_cons_False (λ style, name style = M) s); [done |].
    intros Heq. apply Hs. by rewrite Heq.
Qed.

Lemma length_deregister N (styles : State) :
  length (deregister N styles) + count_named N styles = length styles.
Proof.
  unfold count_named, deregister. induction styles as [|s styles IH]; [done |].
  rewrite (filter_cons (λ style, name style ≠ N)),
          (filter_cons (λ style, name style = N)).
  destruct (decide (name s ≠ N)) as [Hs | Hs];
    destruct (decide (name s = N)) as [Hs' | Hs']; simpl; try lia.
  - by destruct Hs.
  - by destruct Hs; intros ?.
Qed.

(** X4.  [register] leaves one record of the name, however many the state
    held (a state given to the constructor may hold several), leaves the
    number of records of every other name, and makes the state longer by
    one less the number of records it removed. *)
Theorem register_leaves_one_record (styles : State) (N : string) (cls : loc) :
  count_named N (register N cls styles) = 1
  ∧ (∀ M, M ≠ N → count_named M (register N cls styles) = count_named M styles)
  ∧ length (register N cls styles) + count_named N styles = S (length styles)
  ∧ last (register N cls styles) = Some (mkStyle N cls).
Proof.
  unfold register. split_and!.
  - rewrite count_named_app, count_named_deregister.
    unfold count_named. by rewrite filter_cons_True.
  - intros M Hne. rewrite count_named_app, count_named_deregister_ne by done.
    unfold count_named at 2. rewrite filter_cons_False; [simpl; lia |].
    simpl. by intros <-.
  - rewrite length_app. simpl. pose proof (length_deregister N styles). lia.
  - apply last_snoc.
Qed.

(** X5.  [deregister(N)] drops the records named [N] and nothing else:
    each record of the state is dropped or kept in its place by its own
    name alone, so the records left are those of the state not named [N],
    in their order; removing the same name again changes nothing, and two
    names can be removed in either order. *)
Theorem deregister_laws (styles before after : State) (N M : string) (s : Style) :
  deregister N (before ++ [s] ++ after)
    = deregister N before ++ (if decide (name s = N) then [] else [s])
      ++ deregister N after
  ∧ deregister N styles `sublist_of` styles
  ∧ (∀ r, r ∈ deregister N styles ↔ r ∈ styles ∧ name r ≠ N)
  ∧ (∀ K, K ≠ N → count_named K (deregister N styles) = count_named K styles)
  ∧ deregister N (deregister N styles) = deregister N styles
  ∧ deregister N (deregister M styles) = deregister M (deregister N styles).
Proof.
  split_and!.
  - rewrite !deregister_app. f_equal. f_equal.
    unfold deregister. rewrite filter_cons, filter_nil.
    destruct (decide (name s = N)) as [Hs | Hs].
    + by rewrite decide_False by (by intros ?).
    + by rewrite decide_True.
  - apply sublist_filter.
  - intros r. unfold deregister. rewrite list_elem_of_filter. tauto.
  - intros K HK. by apply count_named_deregister_ne.
  - apply deregister_idemp.
  - unfold deregister. rewrite !list_filter_filter.
    apply list_filter_iff. tauto.
Qed.

Lemma deregister_laws_witness :
  let styles := [mkStyle "a" 0; mkStyle "b" 1; mkStyle "a" 2; mkStyle "c" 3] in
  deregister "a" styles = [mkStyle "b" 1; mkStyle "c" 3]
  ∧ count_named "b" (deregister "a" styles) = 1.
Proof.
  intros styles.
  destruct (deregister_laws styles [mkStyle "a" 0] [mkStyle "a" 2; mkStyle "c" 3]
              "a" "b" (mkStyle "b" 1)) as (Hsplit & _ & _ & Hcount & _).
  split; [exact Hsplit |].
  rewrite (Hcount "b") by discriminate. reflexivity.
Defined.

Lemma last_named_cons N s (many : list Style) :
  last_named N (s :: many) =
  match last_named N many with
  | Some s' => Some s'
  | None => if decide (name s = N) then Some s else None
  end.
Proof.
  unfold last_named. rewrite filter_cons.
  destruct (decide (name s = N)); [| by destruct (last _)].
  rewrite last_cons. by destruct (last _).
Qed.

Lemma find_registerMany N many (styles : State) :
  find N (registerMany many styles) =
  match last_named N many with
  | Some s => Some (mkStyle N (classNames s))
  | None => find N styles
  end.
Proof.
  revert styles. induction many as [|s many IH]; intros styles; [done |].
  change (registerMany (s :: many) styles)
    with (registerMany many (register (name s) (classNames s) styles)).
  rewrite IH, last_named_cons.
  destruct (last_named N many) as [s' |]; [done |].
  destruct (decide (name s = N)) as [<- | Hne].
  - apply find_register.
  - apply find_register_ne. by intros ->.
Qed.

(** X6.  [registerMany] with an array that is not the registry's own: the
    last style of the array with a given name wins.  Afterwards [get]
    returns the class names of the last style in the array that carries
    the name, and what it returned before when the array holds no style of
    that name. *)
Theorem registerMany_last_wins (styles : State) (h : Heap) (N : string)
    (many : list Style) :
  get N (registerMany many styles) h =
  match last_named N many with
  | Some style => (classNames style, h)
  | None => get N styles h
  end.
Proof.
  unfold get at 1. rewrite find_registerMany.
  by destruct (last_named N many).
Qed.

(** X7.  The names known after [registerMany] are those known before and
    those of the array. *)
Theorem registerMany_names (styles : State) (many : list Style) (N : string) :
  N ∈ name <$> registerMany many styles ↔
  N ∈ name <$> styles ∨ N ∈ name <$> many.
Proof.
  revert styles. induction many as [|s many IH]; intros styles.
  - simpl. rewrite elem_of_nil. tauto.
  - change (registerMany (s :: many) styles)
      with (registerMany many (register (name s) (classNames s) styles)).
    rewrite IH, names_register, fmap_cons, elem_of_cons. tauto.
Qed.

(** X8.  On a registry without records, [registerMany] with an array of
    styles of different names leaves these styles, in their order: the
    state is the one the constructor makes of that array. *)
Theorem registerMany_on_empty (many : list Style) :
  NoDup (name <$> many) →
  registerMany many (constructor None) = constructor (Some many).
Proof.
  unfold constructor. simpl.
  induction many as [|s many IH] using rev_ind; [done |].
  rewrite fmap_app. intros (Hnd & Hnin & _)%NoDup_app.
  rewrite registerMany_snoc, (IH Hnd). unfold register.
  rewrite style_eta, deregister_absent; [done |].
  intros Hin. apply (Hnin _ Hin). simpl. apply list_elem_of_here.
Qed.

Lemma registerMany_on_empty_witness :
  let many := [mkStyle "control" 0; mkStyle "control.label" 1] in
  registerMany many (constructor None) = many.
Proof.
  intros many. apply (registerMany_on_empty many).
  simpl. apply (bool_decide_unpack _). vm_compute. exact I.
Defined.





(** X9.  [register] keeps the caller's array, not a copy of it: when the
    caller changes the elements of the array it registered, the registry
    shows the change; and an array registered under two names is one array
    for both. *)
Theorem register_keeps_callers_array (styles : State) (h : Heap) (N M : string)
    (cls : loc) (v : list string) :
  cls < length h →
  get_classes N (register N cls styles) (mutate cls v h) = v
  ∧ getAsClassName N (register N cls styles) (mutate cls v h)
    = (if isEmpty v then "" else join v " ")
  ∧ (M ≠ N →
     get_classes N (register M cls (register N cls styles)) (mutate cls v h) = v
     ∧ get_classes M (register M cls (register N cls styles)) (mutate cls v h) = v).
Proof.
  intros Hlt.
  assert (Hv : get_classes N (register N cls styles) (mutate cls v h) = v).
  { rewrite (get_classes_registered _ _ _ _ (find_register N cls styles)).
    by apply deref_mutate. }
  split_and!.
  - exact Hv.
  - by rewrite getAsClassName_classes, Hv.
  - intros Hne. split.
    + assert (Hfind : find N (register M cls (register N cls styles))
                      = Some (mkStyle N cls)).
      { rewrite find_register_ne by (by intros ->). apply find_register. }
      rewrite (get_classes_registered _ _ _ _ Hfind). by apply deref_mutate.
    + rewrite (get_classes_registered _ _ _ _ (find_register M cls _)).
      by apply deref_mutate.
Qed.

Lemma register_keeps_callers_array_witness :
  let h : Heap := [["btn"]] in
  get_classes "button" (register "button" 0 []) (mutate 0 ["btn"; "big"] h)
  = ["btn"; "big"].
Proof.
  intros h.
  destruct (register_keeps_callers_array [] h "button" "control" 0 ["btn"; "big"]
              ltac:(simpl; lia)) as [H1 _].
  exact H1.
Defined.

(** X10.  [applyStyles] looks at no class the element has: applied a
    second time it appends the registered class names a second time. *)
Theorem applyStyles_twice (styles : State) (h : Heap) (N : string) (e : HTMLElement) :
  get_classes N styles h ≠ [] →
  let reg := join (get_classes N styles h) " " in
  className (applyStyles N (applyStyles N e styles h) styles h)
  = className e +:+ " " +:+ reg +:+ " " +:+ reg.
Proof.
  intros Hreg reg. rewrite !applyStyles_className.
  destruct (get_classes N styles h) as [|c cs] eqn:Hcls; [done |].
  subst reg. by rewrite !JsFacts.append_assoc.
Qed.

Lemma applyStyles_twice_witness :
  let styles := [mkStyle "control.label" 0] in
  let h : Heap := [["bar"; "baz"]] in
  let e := mkElement "foo" "" in
  className (applyStyles "control.label" (applyStyles "control.label" e styles h) styles h)
  = "foo bar baz bar baz".
Proof.
  intros styles h e.
  apply (applyStyles_twice styles h "control.label" e). vm_compute. discriminate.
Defined.

(** X11.  [getAsClassName] is the empty string for a name that is not
    registered, and for a name registered with class names that hold no
    space it splits, at the spaces, into these class names. *)
Theorem getAsClassName_split (styles : State) (h : Heap) (N : string) :
  (find N styles = None → getAsClassName N styles h = "")
  ∧ (get_classes N styles h ≠ [] →
     Forall (fun c => contains " " c = false) (get_classes N styles h) →
     split " " (getAsClassName N styles h) = get_classes N styles h).
Proof.
  rewrite getAsClassName_classes. split.
  - intros Hfind. by rewrite (get_classes_unregistered _ _ _ Hfind).
  - intros Hne Hfree. rewrite isEmpty_false by done.
    by apply (JsFacts.split_join " ").
Qed.

Lemma getAsClassName_split_witness :
  let styles := [mkStyle "x" 0] in
  let h : Heap := [["a"; "b"]] in
  getAsClassName "y" styles h = ""
  ∧ split " " (getAsClassName "x" styles h) = ["a"; "b"].
Proof.
  intros styles h.
  destruct (getAsClassName_split styles h "y") as [H1 _].
  destruct (getAsClassName_split styles h "x") as [_ H2].
  split; [apply H1; reflexivity |].
  apply H2; [vm_compute; discriminate | vm_compute; repeat constructor].
Defined.

(** X12.  [get] changes no array there is: every location of the heap
    holds afterwards what it held before.  For a name that is not
    registered two calls return two arrays, none of which is one of the
    heap before. *)
Theorem get_allocates_apart (styles : State) (h : Heap) (N : string) :
  (∀ l, l < length h → deref (get N styles h).2 l = deref h l)
  ∧ (find N styles = None →
     let first := get N styles h in
     let second := get N styles first.2 in
     first.1 ≠ second.1 ∧ length h ≤ first.1 ∧ length h ≤ second.1).
Proof.
  split.
  - intros l Hl. unfold get, alloc_empty, deref.
    destruct (find N styles); simpl; [done |]. by rewrite lookup_app_l.
  - intros Hfind first second. subst first second.
    rewrite !(get_unregistered _ _ _ Hfind). simpl.
    rewrite length_app. simpl. lia.
Qed.

Lemma register_leaves_one_record_witness :
  let styles := constructor (Some [mkStyle "a" 0; mkStyle "b" 1; mkStyle "a" 2]) in
  count_named "a" (register "a" 3 styles) = 1
  ∧ count_named "b" (register "a" 3 styles) = 1
  ∧ length (register "a" 3 styles) = 2.
Proof.
  intros styles.
  destruct (register_leaves_one_record styles "a" 3) as (H1 & H2 & H3 & _).
  split_and!.
  - exact H1.
  - rewrite (H2 "b") by discriminate. reflexivity.
  - change (count_named "a" styles) with 2 in H3.
    change (length styles) with 3 in H3. lia.
Defined.

Lemma get_allocates_apart_witness :
  let styles := [mkStyle "control" 0] in
  let h : Heap := [["c"]] in
  (get "button" styles h).1 ≠ (get "button" styles (get "button" styles h).2).1
  ∧ deref (get "button" styles h).2 0 = ["c"].
Proof.
  intros styles h.
  destruct (get_allocates_apart styles h "button") as [Hkeep Hfresh].
  destruct (Hfresh eq_refl) as (Hne & _ & _).
  split; [exact Hne |]. apply (Hkeep 0). simpl. lia.
Defined.

End StylingRegistryLaws.

(** ** The base control *)

Module BaseControlLaws.

Import Js StylingRegistryImpl BaseControl BaseControlFacts.

(** *** The class list under [toggle] *)

Lemma remove_absent token (tokens : Dom.TokenSet) :
  token ∉ tokens → Dom.remove token tokens = tokens.
Proof.
  unfold Dom.remove. induction tokens as [|t tokens IH]; [done |].
  rewrite not_elem_of_cons. intros [Hne Hnin].
  rewrite filter_cons_True by (by intros ->). by rewrite IH.
Qed.

Lemma toggle_inr token force (tokens tokens' : Dom.TokenSet) :
  Dom.toggle token force tokens = inr tokens' →
  tokens' =
    (if force then (if bool_decide (token ∈ tokens) then tokens else tokens ++ [token])
     else Dom.remove token tokens).
Proof.
  unfold Dom.toggle, Dom.contains. destruct (Dom.validate token); [done |].
  case_bool_decide as Hin; destruct force; intros [= <-]; try done.
  by rewrite remove_absent.
Qed.

Lemma toggle_other token force (tokens tokens' : Dom.TokenSet) t :
  Dom.toggle token force tokens = inr tokens' →
  t ≠ token → (t ∈ tokens' ↔ t ∈ tokens).
Proof.
  intros ->%toggle_inr Hne. destruct force.
  - case_bool_decide; [done |].
    rewrite elem_of_app, list_elem_of_singleton. tauto.
  - unfold Dom.remove. rewrite list_elem_of_filter. tauto.
Qed.

Lemma toggle_NoDup token force (tokens tokens' : Dom.TokenSet) :
  Dom.toggle token force tokens = inr tokens' → NoDup tokens → NoDup tokens'.
Proof.
  intros ->%toggle_inr Hnd. destruct force.
  - case_bool_decide as Hin; [done |].
    apply NoDup_app. split_and!; [done | | apply NoDup_singleton].
    intros x Hx. rewrite list_elem_of_singleton. by intros ->.
  - by apply NoDup_filter.
Qed.

Lemma toggle_idemp token force (tokens tokens' : Dom.TokenSet) :
  Dom.toggle token force tokens = inr tokens' →
  Dom.toggle token force tokens' = inr tokens'.
Proof.
  intros Htoggle. pose proof (toggle_inr _ _ _ _ Htoggle) as ->.
  unfold Dom.toggle, Dom.contains in *.
  destruct (Dom.validate token); [done |]. clear Htoggle.
  destruct force.
  - destruct (decide (token ∈ tokens)) as [Hin | Hnin].
    + by rewrite !(bool_decide_eq_true_2 _ Hin).
    + rewrite (bool_decide_eq_false_2 _ Hnin).
      rewrite bool_decide_eq_true_2; [done |].
      apply elem_of_app. right. apply list_elem_of_here.
  - rewrite bool_decide_eq_false_2; [done |].
    unfold Dom.remove. rewrite list_elem_of_filter. by intros [Hne _].
Qed.

Section RuntimeEvents.

Variable styles : State.
Variable h : Heap.

(** X13.  The event [ENABLED] raises nothing and leaves the attribute
    [disabled] of the widget at ["true"] when the runtime is not enabled and
    absent when it is; every other attribute of the widget is as before. *)
Theorem runtimeUpdated_enabled (this : Control) :
  let after := runtimeUpdated styles h ENABLED this in
  after.2 = None
  ∧ attrs (input after.1) !! "disabled"
    = (if enabled (runtime (uischema this)) then None else Some "true")
  ∧ (∀ a, a ≠ "disabled" → attrs (input after.1) !! a = attrs (input this) !! a).
Proof.
  intros after. subst after. unfold runtimeUpdated.
  destruct (enabled (runtime (uischema this))); simpl; split_and!; try done.
  - apply lookup_delete_eq.
  - intros a Hne. by apply lookup_delete_ne.
  - apply lookup_insert_eq.
  - intros a Hne. by apply lookup_insert_ne.
Qed.

(** X14.  What an event leaves alone.  No event touches the label, the
    children or the bound element; only [VALIDATION_ERROR] touches the
    error element and the class list, and only it can raise; only
    [VISIBLE] touches [hidden], which it sets to the negation of
    [runtime.visible]; only [ENABLED] touches the widget. *)
Theorem runtimeUpdated_frame (type : RUNTIME_TYPE) (this : Control) :
  let after := runtimeUpdated styles h type this in
  label after.1 = label this
  ∧ children after.1 = children this
  ∧ uischema after.1 = uischema this
  ∧ (type ≠ VALIDATION_ERROR →
     after.2 = None
     ∧ errorElement after.1 = errorElement this
     ∧ classList after.1 = classList this)
  ∧ (type = VISIBLE → hidden after.1 = negb (visible (runtime (uischema this))))
  ∧ (type ≠ VISIBLE → hidden after.1 = hidden this)
  ∧ (type ≠ ENABLED → input after.1 = input this).
Proof.
  intros after. subst after. unfold runtimeUpdated.
  destruct type; simpl;
    try destruct (Dom.toggle _ _ _);
    try destruct (enabled (runtime (uischema this))); simpl;
    split_and!; done.
Qed.

(** X15.  The event [VALIDATION_ERROR] leaves every class but the error
    style class in the class list or out of it, as it was, and a class list
    without a class twice stays so. *)
Theorem validation_error_other_classes (this : Control) :
  let after := runtimeUpdated styles h VALIDATION_ERROR this in
  (∀ t, t ≠ errorClass styles h → (t ∈ classList after.1 ↔ t ∈ classList this))
  ∧ (NoDup (classList this) → NoDup (classList after.1)).
Proof.
  intros after. subst after. unfold runtimeUpdated. fold (errorClass styles h).
  simpl.
  destruct (Dom.toggle _ _ _) as [e | tokens] eqn:Htoggle; simpl.
  - done.
  - split.
    + intros t Hne. by apply (toggle_other _ _ _ _ _ Htoggle).
    + by apply (toggle_NoDup _ _ _ _ Htoggle).
Qed.

Lemma set_attr_idemp a v (i : InputElement) :
  setAttribute a v (setAttribute a v i) = setAttribute a v i.
Proof. unfold setAttribute. simpl. by rewrite insert_insert_eq. Qed.

Lemma remove_attr_idemp a (i : InputElement) :
  removeAttribute a (removeAttribute a i) = removeAttribute a i.
Proof. unfold removeAttribute. simpl. by rewrite delete_delete_eq. Qed.

(** X16.  An event delivered twice, the runtime being the same, leaves the
    control as the event delivered once does, and raises what it raised. *)
Theorem runtimeUpdated_twice (type : RUNTIME_TYPE) (this : Control) :
  runtimeUpdated styles h type (runtimeUpdated styles h type this).1
  = runtimeUpdated styles h type this.
Proof.
  unfold runtimeUpdated. destruct type; simpl.
  - destruct (Dom.toggle _ _ (classList this)) as [e | tokens] eqn:Htoggle; simpl.
    + by rewrite Htoggle.
    + by rewrite (toggle_idemp _ _ _ _ Htoggle).
  - done.
  - destruct (enabled (runtime (uischema this))) eqn:Hen; simpl;
      rewrite Hen; unfold with_input; simpl.
    + by rewrite remove_attr_idemp.
    + by rewrite set_attr_idemp.
  - done.
Qed.

(** The elements of the error list show and go: the class list returns to
    what it was. *)
Lemma toggle_on_off token (tokens on off : Dom.TokenSet) :
  token ∉ tokens →
  Dom.toggle token true tokens = inr on →
  Dom.toggle token false on = inr off → off = tokens.
Proof.
  intros Hnin ->%toggle_inr ->%toggle_inr.
  rewrite bool_decide_eq_false_2 by done.
  unfold Dom.remove. rewrite filter_app, filter_cons_False by tauto.
  rewrite filter_nil, app_nil_r. by apply remove_absent.
Qed.

(** X17.  Errors that come and go: a control without the error style
    class, one event with [validationErrors] set to a list or to [null],
    one event with [validationErrors] undefined again, the error style
    being a class.  The class list is the one the control began with and
    the error text is empty. *)
Theorem validation_error_on_off (this : Control) (errors : Nullable (list string)) :
  Dom.validate (errorClass styles h) = None →
  errorClass styles h ∉ classList this →
  errors ≠ undefined →
  let shown :=
    (runtimeUpdated styles h VALIDATION_ERROR (setValidationErrors errors this)).1 in
  let cleared :=
    (runtimeUpdated styles h VALIDATION_ERROR (setValidationErrors undefined shown)).1 in
  errorClass styles h ∈ classList shown
  ∧ classList cleared = classList this
  ∧ textContent (errorElement cleared) = "".
Proof.
  intros Hvalid Hnin Herrors shown cleared.
  assert (Hforce : is_not_undefined errors = true) by (by destruct errors).
  destruct (toggle_on (errorClass styles h) (classList this) Hvalid)
    as (on & Hon & Hin).
  assert (Hshown : classList shown = on).
  { subst shown. unfold runtimeUpdated. fold (errorClass styles h). simpl.
    by rewrite Hforce, Hon. }
  destruct (toggle_off (errorClass styles h) on Hvalid) as (off & Hoff & _).
  assert (Hcleared : classList cleared = off
                     ∧ textContent (errorElement cleared) = "").
  { subst cleared. unfold runtimeUpdated. fold (errorClass styles h). simpl.
    by rewrite Hshown, Hoff. }
  destruct Hcleared as [Hcls Htext].
  split_and!.
  - by rewrite Hshown.
  - rewrite Hcls. by apply (toggle_on_off _ _ _ _ Hnin Hon Hoff).
  - exact Htext.
Qed.

End RuntimeEvents.

Lemma runtimeUpdated_enabled_witness :
  let off := mkControlElement "/age" (mkRuntime true false undefined) in
  let this := mkControl off createElement
                (mkInput ∅ {["type" := "number"]}) createElement [] false [] in
  attrs (input (runtimeUpdated [] [] ENABLED this).1) !! "disabled" = Some "true"
  ∧ attrs (input (runtimeUpdated [] [] ENABLED this).1) !! "type" = Some "number".
Proof.
  intros off this.
  destruct (runtimeUpdated_enabled [] [] this) as (_ & Hdisabled & Hother).
  split; [exact Hdisabled |].
  rewrite (Hother "type") by discriminate. reflexivity.
Defined.

Lemma runtimeUpdated_frame_witness :
  let this := renderedText [] [] firstName in
  (runtimeUpdated [] [] VISIBLE this).2 = None
  ∧ classList (runtimeUpdated [] [] VISIBLE this).1 = classList this
  ∧ hidden (runtimeUpdated [] [] VISIBLE this).1 = false
  ∧ hidden (runtimeUpdated [] [] ENABLED this).1 = hidden this
  ∧ input (runtimeUpdated [] [] VISIBLE this).1 = input this.
Proof.
  intros this.
  destruct (runtimeUpdated_frame [] [] VISIBLE this)
    as (_ & _ & _ & H4 & H5 & _ & H7).
  destruct (runtimeUpdated_frame [] [] ENABLED this)
    as (_ & _ & _ & _ & _ & H6 & _).
  destruct (H4 ltac:(discriminate)) as (Hexn & _ & Hcls).
  split_and!;
    [exact Hexn | exact Hcls | exact (H5 eq_refl)
     | exact (H6 ltac:(discriminate)) | exact (H7 ltac:(discriminate))].
Defined.

Lemma validation_error_other_classes_witness :
  let styles := [mkStyle "validation.error" 0] in
  let h : Heap := [["validation_error"]] in
  let this := mkControl firstName createElement (mkInput ∅ ∅) createElement
                        ["control"] false [] in
  "control" ∈ classList (runtimeUpdated styles h VALIDATION_ERROR this).1
  ∧ NoDup (classList (runtimeUpdated styles h VALIDATION_ERROR this).1).
Proof.
  intros styles h this.
  destruct (validation_error_other_classes styles h this) as [Hother Hnd].
  split.
  - apply (Hother "control"); [discriminate | apply list_elem_of_here].
  - apply Hnd. apply (bool_decide_unpack _). vm_compute. exact I.
Defined.

Lemma validation_error_on_off_witness :
  let styles := [mkStyle "validation.error" 0] in
  let h : Heap := [["validation_error"]] in
  let this := mkControl lastName createElement (mkInput ∅ ∅) createElement
                        ["control"] false [] in
  let shown :=
    (runtimeUpdated styles h VALIDATION_ERROR
       (setValidationErrors (value ["required"]) this)).1 in
  let cleared :=
    (runtimeUpdated styles h VALIDATION_ERROR (setValidationErrors undefined shown)).1 in
  "validation_error" ∈ classList shown
  ∧ classList cleared = ["control"]
  ∧ textContent (errorElement cleared) = "".
Proof.
  intros styles h this.
  apply (validation_error_on_off styles h this (value ["required"])).
  - reflexivity.
  - apply (bool_decide_unpack _). vm_compute. exact I.
  - discriminate.
Defined.

(** *** The error text *)

Lemma join_eq_empty (l : list string) c :
  join l (String c "") = "" ↔ l = [] ∨ l = [""].
Proof.
  split.
  - destruct l as [|x [|y l]]; simpl.
    + by left.
    + intros ->. by right.
    + destruct x as [|a x]; rewrite ?JsFacts.append_nil_l, ?JsFacts.append_cons;
        discriminate.
  - by intros [-> | ->].
Qed.

(** X18.  The error text of a list of messages without line feeds splits,
    at the line feeds, into these messages: one line per message, in
    their order. *)
Theorem formatErrorMessage_lines (errors : list string) :
  errors ≠ [] →
  Forall (fun e => contains (ascii_of_nat 10) e = false) errors →
  split (ascii_of_nat 10) (formatErrorMessage (value errors)) = errors.
Proof. intros Hne Hfree. by apply JsFacts.split_join. Qed.

Lemma formatErrorMessage_lines_witness :
  split (ascii_of_nat 10) (formatErrorMessage (value ["required"; "too short"]))
  = ["required"; "too short"].
Proof.
  apply formatErrorMessage_lines; [discriminate |].
  vm_compute. repeat constructor.
Defined.

(** X19.  The error text is empty in these cases and no other:
    [validationErrors] is [undefined], [null], the empty list, or the
    list of one empty message. *)
Theorem formatErrorMessage_empty (errors : Nullable (list string)) :
  formatErrorMessage errors = "" ↔
  errors = undefined ∨ errors = null ∨ errors = value [] ∨ errors = value [""].
Proof.
  destruct errors as [| |l]; simpl.
  - split; [by left | done].
  - split; [by right; left | done].
  - rewrite join_eq_empty. split.
    + intros [-> | ->]; [by right; right; left | by right; right; right].
    + intros [? | [? | [[= ->] | [= ->]]]]; try done; [by left | by right].
Qed.

(** *** Interest in data changes *)

(** X20.  Interest is an equivalence on the bound paths: a control needs
    notification about its own element; if one control needs notification
    about the element of another, so does the other about the element of
    the first; and interest carries over from a second control to a third.
    The runtime of the element plays no part. *)
Theorem needsNotificationAbout_equivalence (a b c : Control) (rt : Runtime) :
  needsNotificationAbout a (value (uischema a)) = true
  ∧ needsNotificationAbout a (value (uischema b))
    = needsNotificationAbout b (value (uischema a))
  ∧ (needsNotificationAbout a (value (uischema b)) = true →
     needsNotificationAbout b (value (uischema c)) = true →
     needsNotificationAbout a (value (uischema c)) = true)
  ∧ needsNotificationAbout a (value (mkControlElement (scope_ref (uischema b)) rt))
    = needsNotificationAbout a (value (uischema b)).
Proof.
  unfold needsNotificationAbout. simpl. split_and!.
  - by apply bool_decide_eq_true_2.
  - apply bool_decide_ext. split; congruence.
  - rewrite !bool_decide_eq_true. congruence.
  - done.
Qed.

Lemma needsNotificationAbout_equivalence_witness :
  let a := renderedText [] [] firstName in
  let b := renderedText [] [] (mkControlElement "/firstName"
                                 (mkRuntime false false null)) in
  let c := renderedText [] [] (mkControlElement "/firstName"
                                 (mkRuntime true false undefined)) in
  needsNotificationAbout a (value (uischema c)) = true.
Proof.
  intros a b c.
  destruct (needsNotificationAbout_equivalence a b c (mkRuntime true true null))
    as (_ & _ & Htrans & _).
  apply Htrans; reflexivity.
Defined.

(** *** Class attributes as token sets *)

Lemma validate_None token :
  Dom.validate token = None ↔ token ≠ "" ∧ Dom.has_whitespace token = false.
Proof.
  unfold Dom.validate. destruct token as [|c token]; [by split; [| intros []] |].
  destruct (Dom.has_whitespace (String c token)); split; try done.
  by intros [_ ?].
Qed.

Lemma split_by_ws_append w rest :
  Dom.has_whitespace w = false →
  split_by Dom.is_ascii_whitespace (w +:+ String " " rest)
  = w :: split_by Dom.is_ascii_whitespace rest.
Proof.
  induction w as [|c w IH]; simpl.
  - intros _. by rewrite ?JsFacts.append_nil_l.
  - intros [Hc Hw]%orb_false_iff. rewrite ?JsFacts.append_cons. simpl.
    by rewrite Hc, (IH Hw).
Qed.

Lemma split_by_ws_none w :
  Dom.has_whitespace w = false → split_by Dom.is_ascii_whitespace w = [w].
Proof.
  induction w as [|c w IH]; simpl; [done |].
  intros [Hc Hw]%orb_false_iff. by rewrite Hc, (IH Hw).
Qed.

Lemma split_by_ws_join (l : list string) :
  Forall (fun w => Dom.has_whitespace w = false) l → l ≠ [] →
  split_by Dom.is_ascii_whitespace (join l " ") = l.
Proof.
  induction 1 as [|w l Hw Hall IH]; [done |]. intros _.
  destruct l as [|y l].
  - simpl. by apply split_by_ws_none.
  - rewrite JsFacts.join_cons by done.
    rewrite ?JsFacts.append_cons, ?JsFacts.append_nil_l.
    rewrite split_by_ws_append by done. by rewrite IH.
Qed.

Lemma append_NoDup token (tokens : Dom.TokenSet) :
  NoDup tokens → NoDup (Dom.append token tokens).
Proof.
  intros Hnd. unfold Dom.append, Dom.contains. case_bool_decide as Hin; [done |].
  apply NoDup_app. split_and!; [done | | apply NoDup_singleton].
  intros x Hx. rewrite list_elem_of_singleton. by intros ->.
Qed.

Lemma fold_append_NoDup (l : list string) (acc : Dom.TokenSet) :
  NoDup acc → NoDup (foldl (fun tokens t => Dom.append t tokens) acc l).
Proof.
  revert acc. induction l as [|t l IH]; intros acc Hnd; [done |].
  simpl. by apply IH, append_NoDup.
Qed.

Lemma fold_append_fresh (l : list string) (acc : Dom.TokenSet) :
  NoDup (acc ++ l) → foldl (fun tokens t => Dom.append t tokens) acc l = acc ++ l.
Proof.
  revert acc. induction l as [|t l IH]; intros acc Hnd; [by rewrite app_nil_r |].
  simpl. unfold Dom.append at 2, Dom.contains.
  apply NoDup_app in Hnd as Hparts. destruct Hparts as (_ & Hdisj & _).
  rewrite bool_decide_eq_false_2.
  - rewrite IH; rewrite <- app_assoc; done.
  - intros Hin. apply (Hdisj _ Hin), list_elem_of_here.
Qed.

Lemma filter_all {A} (P : A → Prop) `{∀ x, Decision (P x)} (l : list A) :
  Forall P l → filter P l = l.
Proof.
  induction 1 as [|x l Hx Hall IH]; [done |].
  rewrite filter_cons_True by done. by rewrite IH.
Qed.

Lemma parse_tokens_NoDup attr : NoDup (Dom.parse_tokens attr).
Proof. apply fold_append_NoDup, NoDup_nil_2. Qed.

(** A class attribute made by joining tokens that differ is read back as
    these tokens. *)
Lemma parse_tokens_join (l : list string) :
  Forall (fun c => Dom.validate c = None) l → NoDup l →
  Dom.parse_tokens (if isEmpty l then "" else join l " ") = l.
Proof.
  intros Hvalid Hnd. destruct l as [|c l]; [done |].
  simpl isEmpty. cbv iota. unfold Dom.parse_tokens.
  rewrite split_by_ws_join; [| | done].
  - rewrite filter_all.
    + by apply (fold_append_fresh (c :: l) []).
    + eapply Forall_impl; [exact Hvalid |]. intros x. rewrite validate_None. tauto.
  - eapply Forall_impl; [exact Hvalid |]. intros x. rewrite validate_None. tauto.
Qed.

Section Rendering.

Context `{ControlClass}.
Variable styles : State.
Variable h : Heap.
Variable getElementLabelObject : ControlElement → bool * string.
Variable convertToClassName : string → string.
Variable currentValue : ControlElement → JsValue.

Local Abbreviation render' :=
  (render styles h getElementLabelObject convertToClassName currentValue).

(** [render] assigns the label, the widget and the error element before
    it reads them: what the three fields held makes no difference. *)
Lemma render_assigns_fields (this : Control) (ds : DataService) l i e :
  render' (mkControl (uischema this) l i e (classList this) (hidden this)
                     (children this)) ds
  = render' this ds.
Proof.
  unfold render, createInput, createLabel. simpl.
  by destruct (getElementLabelObject (uischema this)).
Qed.

(** X22.  [render] asks the data service once, for the value of the bound
    element, and notifies it of nothing; the error element starts without
    text and with the class names of ['control.validation']; the three
    children are appended in the order label, widget, error element;
    [hidden] and the bound element are not touched. *)
Theorem render_effects (this : Control) (ds : DataService) :
  let r := render' this ds in
  r.1.2 = ds ++ [GetValue (uischema this)]
  ∧ notify_count r.1.2 = notify_count ds
  ∧ errorElement r.1.1 = mkElement (getAsClassName "control.validation" styles h) ""
  ∧ children r.1.1 = children this ++ [LabelChild; InputChild; ErrorChild]
  ∧ hidden r.1.1 = hidden this
  ∧ uischema r.1.1 = uischema this.
Proof.
  intros r. subst r. unfold render, createInput, createLabel.
  destruct (getElementLabelObject (uischema this)) as [show text].
  simpl. destruct (Dom.add _ _); simpl.
  all: split_and!; try done.
  all: try (unfold notify_count; rewrite List.filter_app, length_app; simpl; lia).
  all: by rewrite <- !app_assoc.
Qed.

Lemma append_empty_r (a : string) : a +:+ "" = a.
Proof.
  induction a as [|c a IH]; [done |]. by rewrite JsFacts.append_cons, IH.
Qed.

(** X23.  The styles of ['control.input'] go to the label.  After [render]
    the class attribute of the label is the class names of
    ['control.label'] and then those of ['control.input'], each group with
    a space before each name, and its text is the text of the label object
    when that is to be shown and empty when not. *)
Theorem render_label_classes (this : Control) (ds : DataService) :
  let r := render' this ds in
  let spaced := fun classes : list string =>
    match classes with [] => "" | _ => " " +:+ join classes " " end in
  className (label r.1.1)
    = spaced (StylingRegistryImpl.get_classes "control.label" styles h)
      +:+ spaced (StylingRegistryImpl.get_classes "control.input" styles h)
  ∧ textContent (label r.1.1)
    = (if (getElementLabelObject (uischema this)).1
       then (getElementLabelObject (uischema this)).2 else "").
Proof.
  intros r spaced. subst r. unfold render, createInput, createLabel.
  destruct (getElementLabelObject (uischema this)) as [show text].
  assert (Hlabel : ∀ e, className e = "" →
    className (applyStyles styles h "control.input"
                 (applyStyles styles h "control.label" e))
    = spaced (StylingRegistryImpl.get_classes "control.label" styles h)
      +:+ spaced (StylingRegistryImpl.get_classes "control.input" styles h)).
  { intros e He. unfold applyStyles.
    rewrite !StylingRegistryFacts.applyStyles_className, He. subst spaced. simpl.
    destruct (StylingRegistryImpl.get_classes "control.label" styles h);
      destruct (StylingRegistryImpl.get_classes "control.input" styles h);
      rewrite ?JsFacts.append_nil_l, ?append_empty_r; done. }
  assert (Htext : ∀ e,
    textContent (applyStyles styles h "control.input"
                   (applyStyles styles h "control.label" e)) = textContent e).
  { intros e. unfold applyStyles.
    rewrite !StylingRegistryFacts.applyStyles_classes.
    by repeat (destruct (isEmpty _); simpl). }
  simpl. destruct (Dom.add _ _); simpl.
  all: split;
    [ apply Hlabel; by destruct show
    | rewrite Htext; by destruct show ].
Qed.

(** X24.  The class list [render] leaves.  [render] raises what the check
    of the token [convertToClassName] made of the bound path raises, and
    nothing else; the class list holds no class twice; when the class
    names of ['control'] are class tokens that differ, the class list is
    these names, followed by the token for the bound path unless it is one
    of them, whatever classes the control had. *)
Theorem render_classList (this : Control) (ds : DataService) :
  let r := render' this ds in
  let classes := StylingRegistryImpl.get_classes "control" styles h in
  let token := convertToClassName (scope_ref (uischema this)) in
  r.2 = Dom.validate token
  ∧ NoDup (classList r.1.1)
  ∧ (Forall (fun c => Dom.validate c = None) classes → NoDup classes →
     Dom.validate token = None →
     classList r.1.1 = if bool_decide (token ∈ classes) then classes
                       else classes ++ [token]).
Proof.
  intros r classes token. subst r. unfold render, createInput, createLabel.
  destruct (getElementLabelObject (uischema this)) as [show text].
  simpl. fold token. unfold Dom.add.
  destruct (Dom.validate token) eqn:Hvalid; simpl.
  - split_and!; [done | apply parse_tokens_NoDup | done].
  - split_and!; [done | apply append_NoDup, parse_tokens_NoDup |].
    intros Hclasses Hnd _.
    rewrite StylingRegistryFacts.getAsClassName_classes. fold classes.
    by rewrite parse_tokens_join.
Qed.

(** X25.  No runtime event changes what a change of the widget forwards:
    after an event of any kind the widget signalling a change does to the
    data service what it did before the event. *)
Theorem runtimeUpdated_keeps_handler (type : RUNTIME_TYPE) (this : Control)
    (ds : DataService) :
  fireChange (runtimeUpdated styles h type this).1 ds = fireChange this ds.
Proof.
  unfold runtimeUpdated, fireChange, changeHandler, getValue, prop.
  destruct type; simpl;
    try destruct (Dom.toggle _ _ _);
    try destruct (enabled (runtime (uischema this))); done.
Qed.

End Rendering.

Lemma render_classList_witness :
  let styles := [mkStyle "control" 0] in
  let h : Heap := [["control"; "row"]] in
  let label := fun _ : ControlElement => (true, "First name") in
  let current := fun _ : ControlElement => JsString "Ann" in
  let this := mkControl firstName createElement (mkInput ∅ ∅) createElement
                        ["stale"] false [] in
  let r := @render textControl styles h label id current this [] in
  r.2 = None ∧ classList r.1.1 = ["control"; "row"; "/firstName"].
Proof.
  intros styles h label current this r.
  destruct (@render_classList textControl styles h label id current this [])
    as (Hexn & _ & Hcls).
  split; [exact Hexn |].
  apply Hcls.
  - vm_compute. repeat constructor.
  - apply (bool_decide_unpack _). vm_compute. exact I.
  - reflexivity.
Defined.

End BaseControlLaws.
